(** * Library information system: loan lifecycle of back/server.js

  A shallow embedding of the Express/Sequelize server: the three models
  (Book, Reader, BookIssue), the validators attached to their fields, the
  database as three tables, and the route handlers POST /books,
  POST /readers, POST /issue and POST /return, followed by the properties
  of the loan lifecycle. *)

From Stdlib Require Import ZArith NArith List Bool String Ascii Lia Sorted.
Import ListNotations.
Local Open Scope Z_scope.

(** ** JavaScript values used by the server *)

Module Js.

(** A JavaScript string is a sequence of UTF-16 code units. *)
Definition jsstring : Type := list N.

(** An ASCII literal as a JavaScript string. *)
Definition str (s : string) : jsstring :=
  map N_of_ascii (list_ascii_of_string s).

(** ECMAScript WhiteSpace: TAB, VT, FF, SP, NBSP, ZWNBSP and the Unicode
    space separators. *)
Definition isWhiteSpace (c : N) : bool :=
  ((c =? 9) || (c =? 11) || (c =? 12) || (c =? 32) || (c =? 160)
   || (c =? 5760) || ((8192 <=? c) && (c <=? 8202))
   || (c =? 8239) || (c =? 8287) || (c =? 12288) || (c =? 65279))%N.

(** ECMAScript LineTerminator: LF, CR, LS, PS. *)
Definition isLineTerminator (c : N) : bool :=
  ((c =? 10) || (c =? 13) || (c =? 8232) || (c =? 8233))%N.

(** The character class [\s] of a regular expression, also the set
    String.prototype.trim strips. *)
Definition isSpace (c : N) : bool := isWhiteSpace c || isLineTerminator c.

(** The class [\d]. *)
Definition isDigit (c : N) : bool := ((48 <=? c) && (c <=? 57))%N.

Fixpoint trimStart (s : jsstring) : jsstring :=
  match s with
  | [] => []
  | c :: r => if isSpace c then trimStart r else s
  end.

Definition trimEnd (s : jsstring) : jsstring := rev (trimStart (rev s)).

(** String.prototype.trim *)
Definition trim (s : jsstring) : jsstring := trimEnd (trimStart s).

(** Equality of strings, code unit by code unit. *)
Fixpoint string_eqb (a b : jsstring) : bool :=
  match a, b with
  | [], [] => true
  | x :: a', y :: b' => (x =? y)%N && string_eqb a' b'
  | _, _ => false
  end.

(** A Date, reduced to the calendar date it denotes; a DATEONLY column
    stores the same three fields. *)
Record Date : Type := mkDate { fullYear : Z; month : Z; day : Z }.

(** Date.prototype.getFullYear *)
Definition getFullYear (d : Date) : Z := fullYear d.

(** Calendar order on dates (the order of 'YYYY-MM-DD' values). *)
Definition date_leb (a b : Date) : bool :=
  (fullYear a <? fullYear b)
  || ((fullYear a =? fullYear b)
      && ((month a <? month b)
          || ((month a =? month b) && (day a <=? day b)))).

End Js.
Import Js.

(** ** Field validators *)

Module Validator.

(** Modelled from the spec: [notEmpty] is the validator of the Sequelize
    library that the models switch on with [notEmpty: true]; its code is
    not part of the repository.  The specification gives the rule as
    "Non-empty text: trimmed length >= 1". *)
Definition notEmpty (s : jsstring) : bool :=
  (1 <=? List.length (trim s))%nat.

(** [isInt: true] on Book.year.  The validator reads the decimal text of
    the number, and a number of magnitude 1e21 or more prints with an
    exponent, which is no integer numeral. *)
Definition isInt (v : Z) : bool := Z.abs v <? 10 ^ 21.

(** [min: 0] on Book.year. *)
Definition min (bound v : Z) : bool := bound <=? v.

(** [max: ...] on Book.year. *)
Definition max (bound v : Z) : bool := v <=? bound.

(** The character class [[\d\s\-\(\)]] of the phone pattern. *)
Definition phoneChar (c : N) : bool :=
  (isDigit c || isSpace c || (c =? 45) || (c =? 40) || (c =? 41))%N.

(** [is: /^\+?[\d\s\-\(\)]{7,}$/i] on Reader.phone: an optional leading
    plus sign, then at least seven characters of the class up to the end
    of the string. *)
Definition phonePattern (s : jsstring) : bool :=
  let rest := match s with
              | c :: r => if (c =? 43)%N then r else s
              | [] => s
              end in
  (7 <=? List.length rest)%nat && forallb phoneChar rest.

End Validator.

(** ** The models *)

Module BookStatus.
(** [DataTypes.ENUM('available', 'issued', 'repair')].  The column holds
    text, and a row keeps whatever text it was created with: the three
    values are names for three texts. *)
Definition t : Type := jsstring.

Definition available : t := str "available".
Definition issued : t := str "issued".
Definition repair : t := str "repair".

Definition eqb (a b : t) : bool := string_eqb a b.
End BookStatus.

Module IssueStatus.
(** [DataTypes.ENUM('issued', 'returned', 'overdue')]; the status of an
    issue is written by the handlers only. *)
Inductive t : Type := issued | returned | overdue.

Definition eqb (a b : t) : bool :=
  match a, b with
  | issued, issued | returned, returned | overdue, overdue => true
  | _, _ => false
  end.
End IssueStatus.

(** Rows carry the columns the source declares and the key [id] that
    Sequelize adds; the columns createdAt and updatedAt, which no handler
    reads, are left out.  Keys and the ids of request bodies are integers,
    as the swagger schemas declare them. *)

(** A row of the table behind [Book]. *)
Record Book : Type := mkBook {
  Book_id : Z;
  title : jsstring;
  author : jsstring;
  year : option Z;
  status : BookStatus.t
}.

(** A row of the table behind [Reader]. *)
Record Reader : Type := mkReader {
  Reader_id : Z;
  name : jsstring;
  email : jsstring;
  phone : option jsstring
}.

(** A row of the table behind [BookIssue].  [sequelize.define] declares
    issueDate, returnDate and status, and the source declares no
    association between the models: the table has no column for a book or
    a reader. *)
Record BookIssue : Type := mkBookIssue {
  Issue_id : Z;
  issueDate : Date;
  returnDate : option Date;
  Issue_status : IssueStatus.t
}.

(** The body of POST /books, which the handler passes whole to
    [Book.create]: besides the fields of a book it may name the key [id].
    An absent field is [None]. *)
Record BookBody : Type := bookBody {
  body_id : option Z;
  body_title : option jsstring;
  body_author : option jsstring;
  body_year : option Z;
  body_status : option BookStatus.t
}.

(** A body of POST /books that names no key. *)
Definition mkBookBody (t a : option jsstring) (y : option Z)
    (s : option BookStatus.t) : BookBody :=
  bookBody None t a y s.

(** The body of POST /readers, passed whole to [Reader.create]. *)
Record ReaderBody : Type := readerBody {
  body_reader_id : option Z;
  body_name : option jsstring;
  body_email : option jsstring;
  body_phone : option jsstring
}.

(** A body of POST /readers that names no key. *)
Definition mkReaderBody (n e p : option jsstring) : ReaderBody :=
  readerBody None n e p.

(** The database ./db/library.db: three tables, the rows of each in the
    order of their keys, which is the order in which [findAll] lists
    them. *)
Record Db : Type := mkDb {
  books : list Book;
  readers : list Reader;
  issues : list BookIssue
}.

Definition empty_db : Db := mkDb [] [] [].

(** ** Exceptions and responses *)

Inductive ValidationErrorItem : Type :=
| notNull_Violation (field : string)
| Validation_failed (validator field : string).

Inductive Exception : Type :=
| ValidationError (items : list ValidationErrorItem)
| UniqueConstraintError
| NoSuchColumn (column : string)
| TypeError.

(** The text placed under the key [error] of an error response. *)
Inductive ErrorText : Type :=
| Literal (text : string)
| message (e : Exception).

Inductive Json : Type :=
| BookJson (b : Book)
| ReaderJson (r : Reader)
| IssueJson (i : BookIssue)
| BooksJson (l : list Book)
| ReadersJson (l : list Reader)
| ErrorJson (error : ErrorText).

(** What [res.status(code).json(payload)] sends. *)
Record Response : Type := mkResponse { statusCode : Z; payload : Json }.

(** ** Awaited database calls: state passing with exceptions

    A rejected promise leaves the database as it is at that moment: nothing
    is undone when control reaches the [catch] block. *)

Inductive Outcome (A : Type) : Type :=
| Ok (a : A)
| Throw (e : Exception).
Arguments Ok {A} a.
Arguments Throw {A} e.

Definition M (A : Type) : Type := Db -> Db * Outcome A.

Definition ret {A} (a : A) : M A := fun db => (db, Ok a).

Definition throw {A} (e : Exception) : M A := fun db => (db, Throw e).

Definition bind {A B} (m : M A) (k : A -> M B) : M B :=
  fun db =>
    match m db with
    | (db', Ok a) => k a db'
    | (db', Throw e) => (db', Throw e)
    end.

Notation "'await' x <- m ; k" := (bind m (fun x => k))
  (at level 61, x name, m at next level, right associativity).

(** [try { body } catch (error) { handler }] around a route handler. *)
Definition try_catch (body : M Response) (handler : Exception -> Response)
  : Db -> Db * Response :=
  fun db =>
    match body db with
    | (db', Ok r) => (db', r)
    | (db', Throw e) => (db', handler e)
    end.

(** ** Model methods *)

(** The key an AUTOINCREMENT primary key column assigns to a new row that
    names none: one more than the largest key so far, and 1 at least. *)
Definition nextId (ids : list Z) : Z := 1 + fold_right Z.max 0 ids.

(** INSERT of a row [a]: the table stays in the order of its keys. *)
Fixpoint insert_by {A} (key : A -> Z) (a : A) (rows : list A) : list A :=
  match rows with
  | [] => [a]
  | x :: r => if key a <? key x then a :: rows else x :: insert_by key a r
  end.

(** [allowNull: false] *)
Definition notNull_items {A} (field : string) (v : option A)
  : list ValidationErrorItem :=
  match v with
  | None => [notNull_Violation field]
  | Some _ => []
  end.

(** [validate: { notEmpty: true }]; validators are not run on an absent
    value. *)
Definition notEmpty_items (field : string) (v : option jsstring)
  : list ValidationErrorItem :=
  match v with
  | None => []
  | Some s =>
      if Validator.notEmpty s then []
      else [Validation_failed "notEmpty" field]
  end.

(** [max: new Date().getFullYear()] is an argument of [sequelize.define]:
    it is evaluated once, when the module is loaded. *)
Definition Book_year_max (loadTime : Date) : Z := getFullYear loadTime.

(** [isInt: true, min: 0, max: ...]; an absent year is not validated. *)
Definition validate_year (loadTime : Date) (v : option Z)
  : list ValidationErrorItem :=
  match v with
  | None => []
  | Some y =>
      (if Validator.isInt y then [] else [Validation_failed "isInt" "year"])
      ++ (if Validator.min 0 y then [] else [Validation_failed "min" "year"])
      ++ (if Validator.max (Book_year_max loadTime) y then []
          else [Validation_failed "max" "year"])
  end.

(** The items of the ValidationError of a book: the violations of
    [allowNull: false] first, then the failures of the validators. *)
Definition Book_validate (loadTime : Date) (body : BookBody)
  : list ValidationErrorItem :=
  notNull_items "title" (body_title body)
  ++ notNull_items "author" (body_author body)
  ++ notEmpty_items "title" (body_title body)
  ++ notEmpty_items "author" (body_author body)
  ++ validate_year loadTime (body_year body).

(** [defaultValue: 'available'] of Book.status. *)
Definition status_or_default (s : option BookStatus.t) : BookStatus.t :=
  match s with
  | Some s => s
  | None => BookStatus.available
  end.

(** The key of a new row: the one the body names, or the next one. *)
Definition key_or_next (id : option Z) (ids : list Z) : Z :=
  match id with
  | Some i => i
  | None => nextId ids
  end.

(** [Book.create(req.body)]: validation, then the INSERT, which the primary
    key refuses when the key the body names is taken. *)
Definition Book_create (loadTime : Date) (body : BookBody) : M Book :=
  fun db =>
    match Book_validate loadTime body, body_title body, body_author body with
    | [], Some t, Some a =>
        let id := key_or_next (body_id body) (map Book_id (books db)) in
        if existsb (fun b => Book_id b =? id) (books db)
        then (db, Throw UniqueConstraintError)
        else
          let book :=
            mkBook id t a (body_year body)
              (status_or_default (body_status body)) in
          (mkDb (insert_by Book_id book (books db)) (readers db) (issues db),
           Ok book)
    | items, _, _ => (db, Throw (ValidationError items))
    end.

(** [Book.findAll()] *)
Definition Book_findAll : M (list Book) := fun db => (db, Ok (books db)).

(** SELECT ... WHERE id = id: the row with that key, if any. *)
Definition book_with_id (id : Z) (db : Db) : option Book :=
  find (fun b => Book_id b =? id) (books db).

(** [Book.findByPk(id)] *)
Definition Book_findByPk (id : Z) : M (option Book) :=
  fun db => (db, Ok (book_with_id id db)).

Definition set_status (s : BookStatus.t) (b : Book) : Book :=
  mkBook (Book_id b) (title b) (author b) (year b) s.

(** UPDATE ... SET status = s WHERE id = id *)
Definition update_books (id : Z) (s : BookStatus.t) (rows : list Book)
  : list Book :=
  map (fun b => if Book_id b =? id then set_status s b else b) rows.

(** [book.update({ status })] on an instance: the row with the key of the
    instance is rewritten. *)
Definition Book_update (book : Book) (s : BookStatus.t) : M Book :=
  fun db =>
    (mkDb (update_books (Book_id book) s (books db)) (readers db) (issues db),
     Ok (set_status s book)).

(** [book.update(...)] where [book] is what [findByPk] returned: calling a
    method on [null] raises a TypeError. *)
Definition update_found (book : option Book) (s : BookStatus.t) : M Book :=
  match book with
  | Some b => Book_update b s
  | None => throw TypeError
  end.

Section ReaderModel.

(** The [isEmail] validator of the library, left abstract: nothing below
    depends on which addresses it accepts. *)
Variable isEmail : jsstring -> bool.

Definition Reader_validate (body : ReaderBody) : list ValidationErrorItem :=
  notNull_items "name" (body_name body)
  ++ notNull_items "email" (body_email body)
  ++ notEmpty_items "name" (body_name body)
  ++ match body_email body with
     | None => []
     | Some e =>
         if isEmail e then [] else [Validation_failed "isEmail" "email"]
     end
  ++ match body_phone body with
     | None => []
     | Some p =>
         if Validator.phonePattern p then []
         else [Validation_failed "is" "phone"]
     end.

(** [Reader.create(req.body)]: validation, then the INSERT, which fails
    when the key the body names is taken or, by [unique: true] on email,
    when another row has the same address. *)
Definition Reader_create (body : ReaderBody) : M Reader :=
  fun db =>
    match Reader_validate body, body_name body, body_email body with
    | [], Some n, Some e =>
        let id :=
          key_or_next (body_reader_id body) (map Reader_id (readers db)) in
        if existsb (fun r => Reader_id r =? id) (readers db)
           || existsb (fun r => string_eqb (email r) e) (readers db)
        then (db, Throw UniqueConstraintError)
        else
          let reader := mkReader id n e (body_phone body) in
          (mkDb (books db) (insert_by Reader_id reader (readers db))
                (issues db),
           Ok reader)
    | items, _, _ => (db, Throw (ValidationError items))
    end.

End ReaderModel.

(** [Reader.findAll()] *)
Definition Reader_findAll : M (list Reader) := fun db => (db, Ok (readers db)).

(** The row that [BookIssue.create] inserts into [db] at time [now]:
    issueDate takes its default [Sequelize.NOW], returnDate stays unset. *)
Definition issued_row (now : Date) (db : Db) : BookIssue :=
  mkBookIssue (nextId (map Issue_id (issues db))) now None
    IssueStatus.issued.

(** [BookIssue.create({ BookId, ReaderId, status })].  BookId and ReaderId
    are no attributes of the model: the values given for them are dropped,
    and neither the row nor the instance carries them. *)
Definition BookIssue_create (now : Date) (bookId readerId : Z)
    (s : IssueStatus.t) : M BookIssue :=
  fun db =>
    let issue :=
      mkBookIssue (nextId (map Issue_id (issues db))) now None s in
    (mkDb (books db) (readers db) (issues db ++ [issue]), Ok issue).

(** [BookIssue.findOne({ where: { BookId, status } })].  The query filters
    on BookId, a column the table does not have: the database rejects it,
    whatever the table holds. *)
Definition BookIssue_findOne (bookId : Z) (s : IssueStatus.t)
  : M (option BookIssue) :=
  throw (NoSuchColumn "BookId").

Definition set_returned (d : Date) (s : IssueStatus.t) (i : BookIssue)
  : BookIssue :=
  mkBookIssue (Issue_id i) (issueDate i) (Some d) s.

(** UPDATE ... SET returnDate = d, status = s WHERE id = id *)
Definition update_issues (id : Z) (d : Date) (s : IssueStatus.t)
    (rows : list BookIssue) : list BookIssue :=
  map (fun i => if Issue_id i =? id then set_returned d s i else i) rows.

(** [issue.update({ returnDate, status })]: rewrites the row of the
    instance and the instance itself, which is the value produced. *)
Definition BookIssue_update (issue : BookIssue) (d : Date)
    (s : IssueStatus.t) : M BookIssue :=
  fun db =>
    (mkDb (books db) (readers db)
          (update_issues (Issue_id issue) d s (issues db)),
     Ok (set_returned d s issue)).

(** ** Route handlers *)

(** [res.status(code).json({ error })] *)
Definition error_response (code : Z) (e : ErrorText) : Response :=
  mkResponse code (ErrorJson e).

(** GET /books *)
Definition get_books : Db -> Db * Response :=
  try_catch
    (await all <- Book_findAll;
     ret (mkResponse 200 (BooksJson all)))
    (fun error => error_response 500 (message error)).

(** POST /books *)
Definition post_books (loadTime : Date) (body : BookBody)
  : Db -> Db * Response :=
  try_catch
    (await book <- Book_create loadTime body;
     ret (mkResponse 201 (BookJson book)))
    (fun error => error_response 400 (message error)).

(** GET /readers *)
Definition get_readers : Db -> Db * Response :=
  try_catch
    (await all <- Reader_findAll;
     ret (mkResponse 200 (ReadersJson all)))
    (fun error => error_response 500 (message error)).

(** POST /readers *)
Definition post_readers (isEmail : jsstring -> bool) (body : ReaderBody)
  : Db -> Db * Response :=
  try_catch
    (await reader <- Reader_create isEmail body;
     ret (mkResponse 201 (ReaderJson reader)))
    (fun error => error_response 400 (message error)).

Definition book_unavailable : ErrorText :=
  Literal "Книга недоступна для выдачи".

Definition no_active_issue : ErrorText :=
  Literal "Активная выдача не найдена".

(** [!book || book.status !== 'available'] *)
Definition not_available (book : option Book) : bool :=
  match book with
  | None => true
  | Some b => negb (BookStatus.eqb (status b) BookStatus.available)
  end.

(** POST /issue, handled at time [now]. *)
Definition post_issue (now : Date) (bookId readerId : Z)
  : Db -> Db * Response :=
  try_catch
    (await book <- Book_findByPk bookId;
     if not_available book then
       ret (error_response 400 book_unavailable)
     else
       await issue <- BookIssue_create now bookId readerId IssueStatus.issued;
       await _ <- update_found book BookStatus.issued;
       ret (mkResponse 201 (IssueJson issue)))
    (fun error => error_response 400 (message error)).

(** POST /return, handled at time [now]. *)
Definition post_return (now : Date) (bookId : Z) : Db -> Db * Response :=
  try_catch
    (await found <- BookIssue_findOne bookId IssueStatus.issued;
     match found with
     | None => ret (error_response 404 no_active_issue)
     | Some issue =>
         await issue <- BookIssue_update issue now IssueStatus.returned;
         await book <- Book_findByPk bookId;
         await _ <- update_found book BookStatus.available;
         ret (mkResponse 200 (IssueJson issue))
     end)
    (fun error => error_response 400 (message error)).

(** ** The server as a transition system *)

Inductive Request : Type :=
| GET_books
| POST_books (body : BookBody)
| GET_readers
| POST_readers (body : ReaderBody)
| POST_issue (bookId readerId : Z)
| POST_return (bookId : Z).

(** The process fixes the validator of e-mail addresses and the moment its
    module was loaded; each request is handled at its own time [now]. *)
Definition handle (isEmail : jsstring -> bool) (loadTime : Date)
    (now : Date) (rq : Request) : Db -> Db * Response :=
  match rq with
  | GET_books => get_books
  | POST_books body => post_books loadTime body
  | GET_readers => get_readers
  | POST_readers body => post_readers isEmail body
  | POST_issue bookId readerId => post_issue now bookId readerId
  | POST_return bookId => post_return now bookId
  end.

(** The databases the server reaches from the empty one by requests that
    satisfy [allowed]. *)
Inductive reachable_by (allowed : Request -> Prop)
    (isEmail : jsstring -> bool) (loadTime : Date) : Db -> Prop :=
| reach_empty : reachable_by allowed isEmail loadTime empty_db
| reach_step db now rq :
    reachable_by allowed isEmail loadTime db ->
    allowed rq ->
    reachable_by allowed isEmail loadTime
      (fst (handle isEmail loadTime now rq db)).

(** The databases the server reaches from the empty one. *)
Definition reachable : (jsstring -> bool) -> Date -> Db -> Prop :=
  reachable_by (fun _ => True).

(** A request that does not create a book directly in status 'issued'. *)
Definition no_issued_on_create (rq : Request) : Prop :=
  match rq with
  | POST_books body => body_status body <> Some BookStatus.issued
  | _ => True
  end.

(** ** Vocabulary of the specification *)

(** A book in status 'issued'. *)
Definition book_issued (b : Book) : bool :=
  BookStatus.eqb (status b) BookStatus.issued.

(** An issue of status 'issued'. *)
Definition issue_open (i : BookIssue) : bool :=
  IssueStatus.eqb (Issue_status i) IssueStatus.issued.

(** A book is in status 'issued' iff exactly one open issue refers to it,
    where [refers i id] reads from the row [i] whether it refers to the
    book of key [id]. *)
Definition loan_invariant (refers : BookIssue -> Z -> bool) (db : Db)
  : Prop :=
  forall b, In b (books db) ->
    (status b = BookStatus.issued
     <-> List.length
           (filter (fun i => refers i (Book_id b) && issue_open i)
              (issues db)) = 1%nat).

(** There are as many books in status 'issued' as open issues. *)
Definition issued_counts_agree (db : Db) : Prop :=
  List.length (filter book_issued (books db))
  = List.length (filter issue_open (issues db)).

(** The reader with a given key, if any. *)
Definition reader_with_id (id : Z) (db : Db) : option Reader :=
  find (fun r => Reader_id r =? id) (readers db).

(** The error classes of the specification, as responses of the server. *)
Definition NotFound (r : Response) : Prop := statusCode r = 404.

Definition InvalidTransition (r : Response) : Prop :=
  r = error_response 400 book_unavailable.

Definition ValidationError_response (r : Response) : Prop :=
  exists items, r = error_response 400 (message (ValidationError items)).



(** The year rule as the specification words it: the bound is the calendar
    year at the moment of the call. *)
Definition year_rule_at_call (now : Date) (y : Z) : bool :=
  (0 <=? y) && (y <=? getFullYear now).

(** Whether POST /books accepted the body. *)
Definition accepted (r : Response) : bool := statusCode r =? 201.

(** The answer of POST /return when the query of [findOne] is rejected. *)
Definition return_rejected : Response :=
  error_response 400 (message (NoSuchColumn "BookId")).

(** ** Keys, histories and the effect of a request *)

(** The columns of a book that no handler writes after the insertion. *)
Definition book_identity (b : Book) : Z * jsstring * jsstring * option Z :=
  (Book_id b, title b, author b, year b).

(** The keys 1, 2, ..., n in this order. *)
Definition keys_from_one (ids : list Z) : Prop :=
  ids = map Z.of_nat (seq 1 (List.length ids)).

(** What a request can do to the database. *)
Inductive effect (rq : Request) (db db' : Db) : Prop :=
| effect_none : db' = db -> effect rq db db'
| effect_book body nb :
    rq = POST_books body ->
    (forall b, In b (books db) -> Book_id b <> Book_id nb) ->
    status nb = status_or_default (body_status body) ->
    db' = mkDb (insert_by Book_id nb (books db)) (readers db) (issues db) ->
    effect rq db db'
| effect_reader nr :
    (forall r, In r (readers db) ->
               Reader_id r <> Reader_id nr /\ email r <> email nr) ->
    db' = mkDb (books db) (insert_by Reader_id nr (readers db)) (issues db) ->
    effect rq db db'
| effect_issue now k b :
    book_with_id k db = Some b -> status b = BookStatus.available ->
    db' = mkDb (update_books k BookStatus.issued (books db)) (readers db)
               (issues db ++ [issued_row now db]) ->
    effect rq db db'.

(** ** Sample data *)

Definition any_email : jsstring -> bool := fun _ => true.

Definition eve_2024 : Date := mkDate 2024 12 31.
Definition day_2025 : Date := mkDate 2025 1 1.
Definition march_1 : Date := mkDate 2025 3 1.
Definition march_9 : Date := mkDate 2025 3 9.

Definition blank : jsstring := str "   ".

Definition seven_spaces : jsstring := str "       ".

Definition war_and_peace (y : option Z) (s : option BookStatus.t)
  : BookBody :=
  mkBookBody (Some (str "War and Peace")) (Some (str "Tolstoy")) y s.

Definition book_1 (s : BookStatus.t) : Book :=
  mkBook 1 (str "War and Peace") (str "Tolstoy") (Some 1869) s.

(** One book and no issue. *)
Definition db_one_book (s : BookStatus.t) : Db := mkDb [book_1 s] [] [].

(** One reader. *)
Definition reader_1 : Reader :=
  mkReader 1 (str "Ivan Ivanov") (str "ivanov@example.com") None.

Definition db_one_reader : Db := mkDb [] [reader_1] [].

(** The database after one POST /books on the empty one. *)
Definition db_after_create (s : option BookStatus.t) : Db :=
  fst (handle any_email day_2025 day_2025
         (POST_books (war_and_peace (Some 1869) s)) empty_db).

(** The database after POST /books and POST /issue on the empty one. *)
Definition db_after_issue : Db :=
  fst (handle any_email day_2025 march_1 (POST_issue 1 7)
         (db_after_create None)).

(** The issue that POST /issue stored in [db_after_issue]. *)
Definition issue_1 : BookIssue :=
  mkBookIssue 1 march_1 None IssueStatus.issued.

(** The database after POST /books, a second POST /books with status
    'repair' and POST /issue of the first book. *)
Definition db_with_repair : Db :=
  fst (handle any_email day_2025 march_1 (POST_issue 1 7)
         (fst (handle any_email day_2025 day_2025
                 (POST_books
                    (mkBookBody (Some (str "Dune")) (Some (str "Herbert"))
                       None (Some BookStatus.repair)))
                 (db_after_create None)))).

(** ** Equations of the handlers *)

Lemma string_eqb_eq (a b : jsstring) : string_eqb a b = true <-> a = b.
Proof.
  revert b. induction a as [| x a IH]; intros [| y b]; cbn;
    try (split; [discriminate | discriminate]); [tauto |].
  rewrite andb_true_iff, N.eqb_eq, IH. split.
  - intros [-> ->]. reflexivity.
  - intros E. injection E as -> ->. now split.
Qed.

Lemma string_eqb_neq (a b : jsstring) : string_eqb a b = false <-> a <> b.
Proof.
  destruct (string_eqb a b) eqn:E.
  - apply string_eqb_eq in E. split; [discriminate | contradiction].
  - split; [| reflexivity]. intros _ H. apply string_eqb_eq in H. congruence.
Qed.

Lemma book_with_id_some (k : Z) (db : Db) (b : Book) :
  book_with_id k db = Some b -> In b (books db) /\ Book_id b = k.
Proof.
  intros H. apply find_some in H. destruct H as [Hin Hk].
  split; [exact Hin | now apply Z.eqb_eq].
Qed.

Lemma not_available_some (b : Book) :
  not_available (Some b) = false <-> status b = BookStatus.available.
Proof.
  unfold not_available, BookStatus.eqb. rewrite negb_false_iff.
  apply string_eqb_eq.
Qed.

Lemma not_available_false (o : option Book) :
  not_available o = false ->
  exists b, o = Some b /\ status b = BookStatus.available.
Proof.
  destruct o as [b |]; [| discriminate].
  intros H. exists b. split; [reflexivity | now apply not_available_some].
Qed.

Lemma post_issue_refused now k r db :
  not_available (book_with_id k db) = true ->
  post_issue now k r db = (db, error_response 400 book_unavailable).
Proof.
  intros H. unfold post_issue, try_catch, bind, Book_findByPk.
  now rewrite H.
Qed.

Lemma post_issue_done now k r db b :
  book_with_id k db = Some b ->
  status b = BookStatus.available ->
  post_issue now k r db =
    (mkDb (update_books k BookStatus.issued (books db)) (readers db)
          (issues db ++ [issued_row now db]),
     mkResponse 201 (IssueJson (issued_row now db))).
Proof.
  intros Hf Hs. destruct (book_with_id_some _ _ _ Hf) as [_ Hk].
  pose proof (proj2 (not_available_some b) Hs) as N.
  unfold post_issue, try_catch, bind, Book_findByPk.
  rewrite Hf, N.
  unfold BookIssue_create, update_found, Book_update, ret, issued_row.
  cbn [books readers issues]. now rewrite Hk.
Qed.


Lemma book_with_id_update k s db rs iss :
  book_with_id k (mkDb (update_books k s (books db)) rs iss)
  = option_map (set_status s) (book_with_id k db).
Proof.
  unfold book_with_id. cbn [books].
  induction (books db) as [| b l IH]; cbn.
  - reflexivity.
  - destruct (Book_id b =? k) eqn:E; cbn; rewrite E; [reflexivity | exact IH].
Qed.

Lemma update_books_in k s rows b' :
  In b' (update_books k s rows) ->
  exists b, In b rows /\ Book_id b' = Book_id b
            /\ ((Book_id b = k /\ status b' = s)
                \/ (Book_id b <> k /\ b' = b)).
Proof.
  unfold update_books. intros H. apply in_map_iff in H.
  destruct H as [b [E Hb]]. exists b. split; [exact Hb |].
  destruct (Book_id b =? k) eqn:Ek; subst b'.
  - apply Z.eqb_eq in Ek. split; [reflexivity | now left].
  - apply Z.eqb_neq in Ek. split; [reflexivity | now right].
Qed.

Lemma update_books_keys k s rows :
  map Book_id (update_books k s rows) = map Book_id rows.
Proof.
  unfold update_books. rewrite map_map. apply map_ext.
  intros b. now destruct (Book_id b =? k).
Qed.

Lemma update_books_identity k s rows :
  map book_identity (update_books k s rows) = map book_identity rows.
Proof.
  unfold update_books. rewrite map_map. apply map_ext.
  intros b. now destruct (Book_id b =? k).
Qed.

(** ** Text validation *)

Lemma trimStart_nil (s : jsstring) :
  trimStart s = [] <-> forallb isSpace s = true.
Proof.
  induction s as [| c r IH]; cbn.
  - tauto.
  - destruct (isSpace c); cbn.
    + exact IH.
    + split; discriminate.
Qed.

Lemma forallb_rev {A} (f : A -> bool) (l : list A) :
  forallb f (rev l) = forallb f l.
Proof.
  induction l as [| a l IH]; cbn.
  - reflexivity.
  - rewrite forallb_app, IH. cbn. rewrite andb_true_r. apply andb_comm.
Qed.

Lemma forallb_isSpace_trimStart (s : jsstring) :
  forallb isSpace (trimStart s) = forallb isSpace s.
Proof.
  induction s as [| c r IH]; cbn.
  - reflexivity.
  - destruct (isSpace c) eqn:E; cbn.
    + exact IH.
    + now rewrite E.
Qed.

(** The rule in the form of the pattern /^[\s\t\r\n]*$/: a text passes iff
    some character of it is not white space. *)
Lemma notEmpty_not_blank (s : jsstring) :
  Validator.notEmpty s = negb (forallb isSpace s).
Proof.
  unfold Validator.notEmpty, trim, trimEnd.
  rewrite length_rev.
  destruct (forallb isSpace s) eqn:E; cbn.
  - apply trimStart_nil in E. rewrite E. reflexivity.
  - destruct (trimStart (rev (trimStart s))) eqn:T.
    + assert (H : forallb isSpace (rev (trimStart s)) = true)
        by now apply trimStart_nil.
      rewrite forallb_rev, forallb_isSpace_trimStart in H. congruence.
    + reflexivity.
Qed.

Lemma notEmpty_items_blank (field : string) (s : jsstring) :
  forallb isSpace s = true ->
  notEmpty_items field (Some s) = [Validation_failed "notEmpty" field].
Proof.
  intros H. unfold notEmpty_items. now rewrite notEmpty_not_blank, H.
Qed.

Lemma Book_create_invalid loadTime body db :
  Book_validate loadTime body <> [] ->
  Book_create loadTime body db
  = (db, Throw (ValidationError (Book_validate loadTime body))).
Proof.
  intros H. unfold Book_create.
  destruct (Book_validate loadTime body); [congruence |].
  reflexivity.
Qed.

Lemma Reader_create_invalid isEmail body db :
  Reader_validate isEmail body <> [] ->
  Reader_create isEmail body db
  = (db, Throw (ValidationError (Reader_validate isEmail body))).
Proof.
  intros H. unfold Reader_create.
  destruct (Reader_validate isEmail body); [congruence |].
  reflexivity.
Qed.

Lemma app_cons_not_nil {A} (l r : list A) (a : A) : l ++ a :: r <> [].
Proof. destruct l; discriminate. Qed.

Lemma app_not_nil_r {A} (l r : list A) : r <> [] -> l ++ r <> [].
Proof. destruct l; [now cbn | discriminate]. Qed.

Lemma app_not_nil_l {A} (l r : list A) : l <> [] -> l ++ r <> [].
Proof. destruct l; [congruence | discriminate]. Qed.

(** C8. The non-empty-text rule accepts a string iff its trimmed length is
    at least 1, and a title, author or name made of white space only makes
    POST /books, respectively POST /readers, answer with a validation error
    and store nothing. *)
Theorem blank_text_is_rejected (s : jsstring) :
  (Validator.notEmpty s = true <-> (1 <= List.length (trim s))%nat)
  /\ (forallb isSpace s = true ->
      Validator.notEmpty s = false
      /\ (forall loadTime body db,
            body_title body = Some s \/ body_author body = Some s ->
            ValidationError_response (snd (post_books loadTime body db))
            /\ fst (post_books loadTime body db) = db)
      /\ (forall isEmail body db,
            body_name body = Some s ->
            ValidationError_response (snd (post_readers isEmail body db))
            /\ fst (post_readers isEmail body db) = db)).
Proof.
  split.
  - unfold Validator.notEmpty. apply Nat.leb_le.
  - intros Hs. split; [now rewrite notEmpty_not_blank, Hs |]. split.
    + intros loadTime body db Hb.
      assert (Hv : Book_validate loadTime body <> []).
      { unfold Book_validate. do 2 apply app_not_nil_r.
        destruct Hb as [Hb | Hb]; rewrite Hb.
        - apply app_not_nil_l. rewrite (notEmpty_items_blank _ _ Hs).
          discriminate.
        - apply app_not_nil_r, app_not_nil_l.
          rewrite (notEmpty_items_blank _ _ Hs). discriminate. }
      unfold post_books, try_catch, bind.
      rewrite (Book_create_invalid _ _ _ Hv). cbn.
      split; [eexists; reflexivity | reflexivity].
    + intros isEmail body db Hb.
      assert (Hv : Reader_validate isEmail body <> []).
      { unfold Reader_validate. do 2 apply app_not_nil_r. rewrite Hb.
        apply app_not_nil_l. rewrite (notEmpty_items_blank _ _ Hs).
        discriminate. }
      unfold post_readers, try_catch, bind.
      rewrite (Reader_create_invalid _ _ _ Hv). cbn.
      split; [eexists; reflexivity | reflexivity].
Qed.

Lemma blank_text_is_rejected_witness :
  forallb isSpace blank = true
  /\ Validator.notEmpty blank = false
  /\ ValidationError_response
       (snd (post_books day_2025
               (mkBookBody (Some blank) (Some (str "Tolstoy")) None None)
               empty_db))
  /\ ValidationError_response
       (snd (post_readers any_email
               (mkReaderBody (Some blank) None None) empty_db)).
Proof.
  destruct (proj2 (blank_text_is_rejected blank) eq_refl) as [H1 [H2 H3]].
  split; [reflexivity |]. split; [exact H1 |]. split.
  - apply (H2 day_2025
             (mkBookBody (Some blank) (Some (str "Tolstoy")) None None)
             empty_db).
    now left.
  - now apply (H3 any_email (mkReaderBody (Some blank) None None) empty_db).
Defined.

(** ** The year rule *)

(** C7. The bound of the year rule is taken when the module is loaded, not
    when the request is handled: a server loaded on 2024-12-31 that handles
    POST /books on 2025-01-01 refuses the year 2025, which the rule of the
    specification accepts at that moment, and stores nothing. *)
Theorem year_bound_is_fixed_at_load_time (isEmail : jsstring -> bool) :
  year_rule_at_call day_2025 2025 = true
  /\ handle isEmail eve_2024 day_2025
       (POST_books (war_and_peace (Some 2025) None)) empty_db
     = (empty_db,
        error_response 400
          (message (ValidationError [Validation_failed "max" "year"])))
  /\ accepted
       (snd (handle isEmail eve_2024 day_2025
               (POST_books (war_and_peace (Some 2025) None)) empty_db))
     = false.
Proof. repeat split. Qed.

(** ** Refusals of POST /issue and POST /return *)

Lemma post_issue_missing_book now k r db :
  book_with_id k db = None ->
  post_issue now k r db = (db, error_response 400 book_unavailable).
Proof. intros H. apply post_issue_refused. now rewrite H. Qed.

(** C3. For a book id that is in no row, POST /issue leaves the database
    untouched but answers with status 400 and the text of the refusal for a
    book that is not available, not with 404: on the empty database the
    request for book 1 is answered so. *)
Theorem issue_of_missing_book_answers_400 :
  book_with_id 1 empty_db = None
  /\ post_issue day_2025 1 1 empty_db
     = (empty_db, error_response 400 book_unavailable)
  /\ InvalidTransition (snd (post_issue day_2025 1 1 empty_db))
  /\ ~ NotFound (snd (post_issue day_2025 1 1 empty_db)).
Proof.
  cbn. repeat split. unfold NotFound. cbn. discriminate.
Qed.

(** C4. For a book whose status is not 'available', POST /issue answers
    with the refusal "book not available for issue" and leaves the
    database, hence the table of issues, as it was. *)
Theorem issue_of_unavailable_book_refused now k r db b :
  book_with_id k db = Some b ->
  status b <> BookStatus.available ->
  InvalidTransition (snd (post_issue now k r db))
  /\ fst (post_issue now k r db) = db
  /\ issues (fst (post_issue now k r db)) = issues db.
Proof.
  intros Hb Hs. rewrite post_issue_refused.
  - repeat split.
  - rewrite Hb. destruct (not_available (Some b)) eqn:E; [reflexivity |].
    apply not_available_some in E. contradiction.
Qed.

Lemma issue_of_unavailable_book_refused_witness :
  InvalidTransition
    (snd (post_issue day_2025 1 1 (db_one_book BookStatus.repair)))
  /\ fst (post_issue day_2025 1 1 (db_one_book BookStatus.repair))
     = db_one_book BookStatus.repair
  /\ issues (fst (post_issue day_2025 1 1 (db_one_book BookStatus.repair)))
     = issues (db_one_book BookStatus.repair).
Proof.
  apply (issue_of_unavailable_book_refused day_2025 1 1
           (db_one_book BookStatus.repair) (book_1 BookStatus.repair)).
  - reflexivity.
  - intros H. vm_compute in H. discriminate H.
Defined.

(** C5. POST /return never answers 404: its query names BookId, a column
    the table of issues lacks, so [findOne] is rejected and the [catch]
    block answers 400.  On the empty database, where no issue of status
    'issued' refers to book 1, the request is answered so; nothing is
    written. *)
Theorem return_without_open_issue_answers_400 :
  issues empty_db = []
  /\ post_return day_2025 1 empty_db = (empty_db, return_rejected)
  /\ statusCode (snd (post_return day_2025 1 empty_db)) = 400
  /\ ~ NotFound (snd (post_return day_2025 1 empty_db)).
Proof.
  repeat split. unfold NotFound. cbn. discriminate.
Qed.

(** C6. The round trip stops at its second half: after POST /books and a
    POST /issue of the book that answers 201, POST /return of the book
    answers 400 and writes nothing, so the book stays 'issued' and the
    issue stays 'issued' without a return date. *)
Theorem round_trip_stops_at_return :
  post_issue march_1 1 7 (db_after_create None)
  = (db_after_issue, mkResponse 201 (IssueJson issue_1))
  /\ post_return march_9 1 db_after_issue = (db_after_issue, return_rejected)
  /\ book_with_id 1 (fst (post_return march_9 1 db_after_issue))
     = Some (book_1 BookStatus.issued)
  /\ issues (fst (post_return march_9 1 db_after_issue)) = [issue_1]
  /\ Issue_status issue_1 = IssueStatus.issued
  /\ returnDate issue_1 = None.
Proof. repeat split. Qed.

(** C10. POST /return does not reach the line that writes 'available':
    in the database reached by two POST /books, the second with status
    'repair', and a POST /issue of the first book, POST /return of either
    book answers 400 and the book keeps its status, 'issued' respectively
    'repair'. *)
Theorem return_leaves_book_status :
  post_return march_9 1 db_with_repair = (db_with_repair, return_rejected)
  /\ option_map status
       (book_with_id 1 (fst (post_return march_9 1 db_with_repair)))
     = Some BookStatus.issued
  /\ post_return march_9 2 db_with_repair = (db_with_repair, return_rejected)
  /\ option_map status
       (book_with_id 2 (fst (post_return march_9 2 db_with_repair)))
     = Some BookStatus.repair
  /\ List.length (issues db_with_repair) = 1%nat.
Proof. repeat split. Qed.

(** ** Lists of rows *)

Lemma nextId_above (ids : list Z) (x : Z) : In x ids -> x < nextId ids.
Proof.
  unfold nextId. induction ids as [| a l IH]; intros H.
  - contradiction.
  - cbn [fold_right].
    destruct H as [H | H]; [subst; lia | specialize (IH H); lia].
Qed.

Lemma existsb_key_false {A} (key : A -> Z) (id : Z) (rows : list A) :
  existsb (fun x => key x =? id) rows = false <->
  forall x, In x rows -> key x <> id.
Proof.
  split.
  - intros H x Hx E.
    assert (T : existsb (fun x => key x =? id) rows = true).
    { apply existsb_exists. exists x. split; [exact Hx |].
      now apply Z.eqb_eq. }
    congruence.
  - intros H. destruct (existsb (fun x => key x =? id) rows) eqn:E;
      [| reflexivity].
    apply existsb_exists in E. destruct E as [x [Hx E]].
    apply Z.eqb_eq in E. now elim (H x Hx).
Qed.


Lemma insert_by_in {A} (key : A -> Z) (a : A) (rows : list A) (y : A) :
  In y (insert_by key a rows) <-> y = a \/ In y rows.
Proof.
  induction rows as [| x r IH]; cbn.
  - intuition.
  - destruct (key a <? key x); cbn; [intuition |].
    rewrite IH. intuition.
Qed.

Lemma insert_by_split {A} (key : A -> Z) (a : A) (rows : list A) :
  exists before after,
    rows = before ++ after /\ insert_by key a rows = before ++ a :: after.
Proof.
  induction rows as [| x r [l1 [l2 [E1 E2]]]]; cbn.
  - now exists [], [].
  - destruct (key a <? key x).
    + now exists [], (x :: r).
    + exists (x :: l1), l2. cbn. now rewrite <- E1, E2.
Qed.

Lemma insert_by_sorted {A} (key : A -> Z) (a : A) (rows : list A) :
  StronglySorted Z.lt (map key rows) ->
  (forall x, In x rows -> key x <> key a) ->
  StronglySorted Z.lt (map key (insert_by key a rows)).
Proof.
  induction rows as [| x r IH]; cbn [insert_by map]; intros Hs Hk.
  - constructor; constructor.
  - inversion Hs as [| ? ? Hr Hx]; subst.
    destruct (key a <? key x) eqn:E.
    + apply Z.ltb_lt in E. cbn [map]. constructor; [exact Hs |].
      constructor; [exact E |].
      eapply Forall_impl; [| exact Hx]. cbn. intros; lia.
    + apply Z.ltb_ge in E.
      pose proof (Hk x (or_introl eq_refl)) as Hne.
      cbn [map]. constructor.
      * apply IH; [exact Hr |]. intros y Hy. apply Hk. now right.
      * apply Forall_forall. intros k Hin. apply in_map_iff in Hin.
        destruct Hin as [y [<- Hy]]. apply insert_by_in in Hy.
        destruct Hy as [-> | Hy]; [lia |].
        rewrite Forall_forall in Hx. apply Hx. now apply in_map.
Qed.

Lemma sorted_NoDup (l : list Z) : StronglySorted Z.lt l -> NoDup l.
Proof.
  induction 1 as [| a l _ IH Ha]; constructor; [| exact IH].
  intros Hin. rewrite Forall_forall in Ha. specialize (Ha a Hin). lia.
Qed.

Lemma find_insert_by {A} (key : A -> Z) (a : A) (rows : list A) :
  (forall x, In x rows -> key x <> key a) ->
  find (fun x => key x =? key a) (insert_by key a rows) = Some a.
Proof.
  induction rows as [| x r IH]; cbn [insert_by]; intros Hk.
  - cbn. now rewrite Z.eqb_refl.
  - destruct (key a <? key x).
    + cbn. now rewrite Z.eqb_refl.
    + cbn. pose proof (Hk x (or_introl eq_refl)) as Hne.
      apply Z.eqb_neq in Hne. rewrite Hne.
      apply IH. intros y Hy. apply Hk. now right.
Qed.

Lemma find_insert_by_other {A} (key : A -> Z) (a : A) (rows : list A) k :
  key a <> k ->
  find (fun x => key x =? k) (insert_by key a rows)
  = find (fun x => key x =? k) rows.
Proof.
  intros Hne. apply Z.eqb_neq in Hne.
  induction rows as [| x r IH]; cbn [insert_by].
  - cbn. now rewrite Hne.
  - destruct (key a <? key x).
    + cbn. now rewrite Hne.
    + cbn. now rewrite IH.
Qed.

Lemma count_insert_by {A} (key : A -> Z) (f : A -> bool) (a : A) rows :
  List.length (filter f (insert_by key a rows))
  = (List.length (filter f rows) + (if f a then 1 else 0))%nat.
Proof.
  induction rows as [| x r IH]; cbn [insert_by].
  - cbn. destruct (f a); reflexivity.
  - destruct (key a <? key x).
    + cbn [filter]. destruct (f a); cbn [List.length]; lia.
    + cbn [filter]. destruct (f x); cbn [List.length]; rewrite IH; lia.
Qed.

Lemma fold_max_seq (a n : nat) :
  fold_right Z.max 0 (map Z.of_nat (seq a n))
  = match n with
    | O => 0
    | S m => Z.of_nat (a + m)
    end.
Proof.
  revert a. induction n as [| n IH]; intros a; [reflexivity |].
  cbn [seq map fold_right]. rewrite IH. destruct n; lia.
Qed.

Lemma keys_from_one_snoc (ids : list Z) :
  keys_from_one ids -> keys_from_one (ids ++ [nextId ids]).
Proof.
  unfold keys_from_one. intros H.
  assert (N : nextId ids = Z.of_nat (1 + List.length ids)).
  { unfold nextId. rewrite H at 1. rewrite fold_max_seq.
    destruct (List.length ids); lia. }
  rewrite length_app. cbn [List.length].
  replace (List.length ids + 1)%nat with (S (List.length ids)) by lia.
  rewrite seq_S, map_app. cbn [map]. now rewrite <- H, N.
Qed.

Lemma NoDup_snoc {A} (l : list A) (a : A) :
  NoDup l -> ~ In a l -> NoDup (l ++ [a]).
Proof.
  induction l as [| x l IH]; cbn; intros Hl Ha.
  - constructor; [intros [] | constructor].
  - inversion Hl as [| ? ? Hx Hl']; subst. constructor.
    + rewrite in_app_iff. intros [H | [H | []]]; [now apply Hx | subst].
      apply Ha. now left.
    + apply IH; [exact Hl' | intros H; apply Ha; now right].
Qed.

Lemma NoDup_map_eq {A B} (f : A -> B) (l : list A) (x y : A) :
  NoDup (map f l) -> In x l -> In y l -> f x = f y -> x = y.
Proof.
  induction l as [| a l IH]; cbn; intros Hn Hx Hy E; [contradiction |].
  inversion Hn as [| ? ? Ha Hl]; subst.
  destruct Hx as [Hx | Hx], Hy as [Hy | Hy].
  - congruence.
  - subst a. elim Ha. rewrite E. now apply in_map.
  - subst a. elim Ha. rewrite <- E. now apply in_map.
  - now apply IH.
Qed.

(** ** What the handlers do to the tables *)

(** What POST /books does: nothing, or one book inserted under the key the
    body names, or the next key, which no row had. *)
Lemma post_books_cases loadTime body db :
  (statusCode (snd (post_books loadTime body db)) = 400
   /\ fst (post_books loadTime body db) = db)
  \/ exists book,
       snd (post_books loadTime body db) = mkResponse 201 (BookJson book)
       /\ fst (post_books loadTime body db)
          = mkDb (insert_by Book_id book (books db)) (readers db) (issues db)
       /\ Book_id book = key_or_next (body_id body) (map Book_id (books db))
       /\ (forall b, In b (books db) -> Book_id b <> Book_id book)
       /\ status book = status_or_default (body_status body)
       /\ body_title body = Some (title book)
       /\ body_author body = Some (author book)
       /\ year book = body_year body.
Proof.
  unfold post_books, try_catch, bind, Book_create.
  destruct (Book_validate loadTime body) as [| e es]; [| left; now split].
  destruct (body_title body) as [t |]; [| left; now split].
  destruct (body_author body) as [a |]; [| left; now split].
  destruct (existsb _ _) eqn:E; [left; now split |].
  right. eexists. cbn [fst snd Book_id status title author year].
  repeat split.
  now apply existsb_key_false.
Qed.

Lemma email_taken_iff (e : jsstring) (rows : list Reader) :
  existsb (fun r => string_eqb (email r) e) rows = true
  <-> exists r, In r rows /\ email r = e.
Proof.
  rewrite existsb_exists. split; intros [r [Hr He]]; exists r;
    (split; [exact Hr | now apply string_eqb_eq]).
Qed.

(** What POST /readers does: nothing, or one reader inserted under the key
    the body names, or the next key, with a key and an address that no row
    had. *)
Lemma post_readers_cases isEmail body db :
  (statusCode (snd (post_readers isEmail body db)) = 400
   /\ fst (post_readers isEmail body db) = db)
  \/ exists reader,
       snd (post_readers isEmail body db)
       = mkResponse 201 (ReaderJson reader)
       /\ fst (post_readers isEmail body db)
          = mkDb (books db) (insert_by Reader_id reader (readers db))
                 (issues db)
       /\ Reader_id reader
          = key_or_next (body_reader_id body) (map Reader_id (readers db))
       /\ body_name body = Some (name reader)
       /\ body_email body = Some (email reader)
       /\ phone reader = body_phone body
       /\ (forall r, In r (readers db) ->
                     Reader_id r <> Reader_id reader
                     /\ email r <> email reader).
Proof.
  unfold post_readers, try_catch, bind, Reader_create.
  destruct (Reader_validate isEmail body) as [| e es]; [| left; now split].
  destruct (body_name body) as [n |]; [| left; now split].
  destruct (body_email body) as [m |]; [| left; now split].
  destruct (existsb _ _ || existsb _ _) eqn:E; [left; now split |].
  apply orb_false_iff in E. destruct E as [E1 E2].
  right. eexists. cbn [fst snd Reader_id name email phone].
  repeat split.
  - now apply (proj1 (existsb_key_false Reader_id _ _) E1).
  - intros He.
    assert (T : existsb (fun r => string_eqb (email r) m) (readers db) = true)
      by (apply email_taken_iff; now exists r).
    congruence.
Qed.

Lemma handle_effect isEmail loadTime now rq db :
  effect rq db (fst (handle isEmail loadTime now rq db)).
Proof.
  destruct rq as [| body | | body | k r | k]; cbn [handle].
  - now apply effect_none.
  - destruct (post_books_cases loadTime body db)
      as [[_ E] | [nb [_ [E [_ [H1 [H2 _]]]]]]].
    + now apply effect_none.
    + now apply (effect_book _ _ _ body nb).
  - now apply effect_none.
  - destruct (post_readers_cases isEmail body db)
      as [[_ E] | [nr [_ [E [_ [_ [_ [_ H]]]]]]]].
    + now apply effect_none.
    + now apply (effect_reader _ _ _ nr).
  - destruct (not_available (book_with_id k db)) eqn:E.
    + rewrite (post_issue_refused now k r db E). now apply effect_none.
    + apply not_available_false in E. destruct E as [b [Hb Hs]].
      rewrite (post_issue_done now k r db b Hb Hs).
      now apply (effect_issue _ _ _ now k b).
  - now apply effect_none.
Qed.

(** ** The reader of an issue *)

(** C9. POST /issue does not look the reader up: for an available book and
    a reader id that is in no row of the readers, it still inserts an
    issue of status 'issued' under a new key and answers 201 with it; the
    reader id has no part in the answer or in what is stored. *)
Theorem issue_for_unknown_reader_created now k r db b :
  book_with_id k db = Some b ->
  status b = BookStatus.available ->
  reader_with_id r db = None ->
  (exists issue,
     snd (post_issue now k r db) = mkResponse 201 (IssueJson issue)
     /\ Issue_status issue = IssueStatus.issued
     /\ issues (fst (post_issue now k r db)) = issues db ++ [issue]
     /\ (forall i, In i (issues db) -> Issue_id i < Issue_id issue)
     /\ ~ NotFound (snd (post_issue now k r db)))
  /\ (forall r', post_issue now k r' db = post_issue now k r db).
Proof.
  intros Hb Hs _. split.
  - rewrite (post_issue_done now k r db b Hb Hs). cbn [fst snd issues].
    exists (issued_row now db). repeat split.
    + intros i Hi. unfold issued_row. cbn [Issue_id].
      apply nextId_above. now apply in_map.
    + unfold NotFound. cbn. discriminate.
  - intros r'. now rewrite !(post_issue_done now k _ db b Hb Hs).
Qed.

Lemma issue_for_unknown_reader_created_witness :
  (exists issue,
     snd (post_issue day_2025 1 42 (db_one_book BookStatus.available))
     = mkResponse 201 (IssueJson issue)
     /\ Issue_status issue = IssueStatus.issued
     /\ issues
          (fst (post_issue day_2025 1 42 (db_one_book BookStatus.available)))
        = issues (db_one_book BookStatus.available) ++ [issue]
     /\ (forall i, In i (issues (db_one_book BookStatus.available)) ->
                   Issue_id i < Issue_id issue)
     /\ ~ NotFound
          (snd (post_issue day_2025 1 42
                  (db_one_book BookStatus.available))))
  /\ (forall r',
        post_issue day_2025 1 r' (db_one_book BookStatus.available)
        = post_issue day_2025 1 42 (db_one_book BookStatus.available)).
Proof.
  apply (issue_for_unknown_reader_created day_2025 1 42
           (db_one_book BookStatus.available)
           (book_1 BookStatus.available));
    reflexivity.
Defined.

(** ** Failures and the two writes *)


(** ** Books in status 'issued' and open issues *)

Lemma effect_book_keys_sorted rq db db' :
  effect rq db db' ->
  StronglySorted Z.lt (map Book_id (books db)) ->
  StronglySorted Z.lt (map Book_id (books db')).
Proof.
  intros [-> | body nb _ Hfree _ -> | nr _ -> | now k b _ _ ->] H;
    cbn [books]; try exact H.
  - now apply insert_by_sorted.
  - now rewrite update_books_keys.
Qed.

Lemma effect_reader_keys_sorted rq db db' :
  effect rq db db' ->
  StronglySorted Z.lt (map Reader_id (readers db)) ->
  StronglySorted Z.lt (map Reader_id (readers db')).
Proof.
  intros [-> | body nb _ Hfree _ -> | nr Hfree -> | now k b _ _ ->] H;
    cbn [readers]; try exact H.
  apply insert_by_sorted; [exact H |].
  intros r Hr. now apply Hfree.
Qed.

Lemma update_issued_count k rows b :
  NoDup (map Book_id rows) ->
  find (fun x => Book_id x =? k) rows = Some b ->
  book_issued b = false ->
  List.length (filter book_issued (update_books k BookStatus.issued rows))
  = S (List.length (filter book_issued rows)).
Proof.
  unfold update_books.
  induction rows as [| x r IH]; cbn [find map filter]; intros Hn Hf Hb.
  - discriminate.
  - inversion Hn as [| ? ? Hx Hr]; subst.
    destruct (Book_id x =? k) eqn:E.
    + injection Hf as ->. rewrite Hb.
      assert (I : book_issued (set_status BookStatus.issued b) = true)
        by reflexivity.
      rewrite I. cbn [List.length]. f_equal. f_equal.
      rewrite <- (map_id r) at 2. f_equal. apply map_ext_in.
      intros y Hy. destruct (Book_id y =? k) eqn:Ey; [| reflexivity].
      apply Z.eqb_eq in E. apply Z.eqb_eq in Ey.
      elim Hx. rewrite E, <- Ey. now apply in_map.
    + destruct (book_issued x); cbn [List.length]; now rewrite (IH Hr Hf Hb).
Qed.

Lemma created_book_not_issued body nb :
  body_status body <> Some BookStatus.issued ->
  status nb = status_or_default (body_status body) ->
  book_issued nb = false.
Proof.
  intros A Hs. unfold book_issued, BookStatus.eqb. rewrite Hs.
  destruct (body_status body) as [s |]; cbn [status_or_default].
  - apply string_eqb_neq. congruence.
  - reflexivity.
Qed.

Lemma effect_issued_counts rq db db' :
  effect rq db db' -> no_issued_on_create rq ->
  StronglySorted Z.lt (map Book_id (books db)) ->
  issued_counts_agree db -> issued_counts_agree db'.
Proof.
  unfold issued_counts_agree.
  intros [-> | body nb -> Hfree Hst -> | nr _ -> | now k b Fb Sb ->] A S C;
    cbn [books issues]; try exact C.
  - rewrite count_insert_by, (created_book_not_issued body nb A Hst). lia.
  - rewrite (update_issued_count k (books db) b).
    + rewrite filter_app, length_app. cbn. lia.
    + now apply sorted_NoDup.
    + exact Fb.
    + unfold book_issued. now rewrite Sb.
Qed.

(** C1, as the code has it.  In every database reached from the empty one
    by requests none of which creates a book directly in status 'issued',
    the books in status 'issued' are as many as the issues of status
    'issued'. *)
Theorem issued_counts_agree_reachable isEmail loadTime db :
  reachable_by no_issued_on_create isEmail loadTime db ->
  issued_counts_agree db.
Proof.
  intros R.
  assert (P : StronglySorted Z.lt (map Book_id (books db))
              /\ issued_counts_agree db).
  { induction R as [| db now rq _ [IS IC] A].
    - split; [constructor | reflexivity].
    - pose proof (handle_effect isEmail loadTime now rq db) as E. split.
      + exact (effect_book_keys_sorted rq _ _ E IS).
      + exact (effect_issued_counts rq _ _ E A IS IC). }
  exact (proj2 P).
Qed.

Lemma issued_counts_agree_reachable_witness :
  reachable_by no_issued_on_create any_email day_2025 db_after_issue
  /\ issued_counts_agree db_after_issue.
Proof.
  assert (R : reachable_by no_issued_on_create any_email day_2025
                db_after_issue).
  { apply (reach_step _ any_email day_2025 (db_after_create None));
      [| exact I].
    apply (reach_step _ any_email day_2025 empty_db); [apply reach_empty |].
    cbn. discriminate. }
  split; [exact R | exact (issued_counts_agree_reachable _ _ _ R)].
Defined.

(** C1, as the claim words it, fails: POST /books stores the status of the
    body, so a book created with status 'issued' is in that status while
    the table of issues is empty, however an issue is read to refer to a
    book. *)
Lemma loan_invariant_broken_by_issued_create :
  reachable any_email day_2025 (db_after_create (Some BookStatus.issued))
  /\ In (book_1 BookStatus.issued)
       (books (db_after_create (Some BookStatus.issued)))
  /\ issues (db_after_create (Some BookStatus.issued)) = []
  /\ (forall refers,
        ~ loan_invariant refers (db_after_create (Some BookStatus.issued))).
Proof.
  split; [| split; [now left | split; [reflexivity |]]].
  - apply (reach_step _ any_email day_2025 empty_db); [apply reach_empty |].
    exact I.
  - intros refers H.
    destruct (H (book_1 BookStatus.issued) (or_introl eq_refl)) as [H1 _].
    specialize (H1 eq_refl). discriminate H1.
Qed.

(** * Further properties of the handlers *)

(** ** POST /books *)




(** X2. An accepted POST /books inserts exactly one book, with the title,
    author and year of the body and the status of the body or 'available',
    under the key the body names or, when it names none, under a key
    larger than every key of the table; no row had that key, and
    [findByPk] then finds the book under it.  A refused POST /books
    answers 400 and leaves the database as it was. *)
Theorem post_books_inserts_or_refuses loadTime body db :
  (accepted (snd (post_books loadTime body db)) = true ->
   exists book,
     snd (post_books loadTime body db) = mkResponse 201 (BookJson book)
     /\ fst (post_books loadTime body db)
        = mkDb (insert_by Book_id book (books db)) (readers db) (issues db)
     /\ Book_id book = key_or_next (body_id body) (map Book_id (books db))
     /\ (forall b, In b (books db) -> Book_id b <> Book_id book)
     /\ (body_id body = None ->
         forall b, In b (books db) -> Book_id b < Book_id book)
     /\ status book = status_or_default (body_status body)
     /\ body_title body = Some (title book)
     /\ body_author body = Some (author book)
     /\ year book = body_year body
     /\ book_with_id (Book_id book) (fst (post_books loadTime body db))
        = Some book)
  /\ (accepted (snd (post_books loadTime body db)) = false ->
      statusCode (snd (post_books loadTime body db)) = 400
      /\ fst (post_books loadTime body db) = db).
Proof.
  destruct (post_books_cases loadTime body db)
    as [[H1 H2] | [book [H1 [H2 [H3 [H4 [H5 [H6 [H7 H8]]]]]]]]].
  - split; [| intros _; now split].
    unfold accepted. rewrite H1. discriminate.
  - split; [intros _ | rewrite H1; discriminate].
    exists book. rewrite H2. repeat split; try assumption.
    + intros Hn b Hb. rewrite H3, Hn. cbn [key_or_next].
      apply nextId_above. now apply in_map.
    + unfold book_with_id. cbn [books]. now apply find_insert_by.
Qed.

Lemma post_books_inserts_or_refuses_witness :
  accepted
    (snd (post_books day_2025
            (bookBody (Some 5) (Some (str "Dune")) (Some (str "Herbert"))
               None None)
            (db_one_book BookStatus.repair))) = true
  /\ exists book,
       Book_id book = 5
       /\ book_with_id 5
            (fst (post_books day_2025
                    (bookBody (Some 5) (Some (str "Dune"))
                       (Some (str "Herbert")) None None)
                    (db_one_book BookStatus.repair)))
          = Some book.
Proof.
  split; [reflexivity |].
  destruct (proj1 (post_books_inserts_or_refuses day_2025
                     (bookBody (Some 5) (Some (str "Dune"))
                        (Some (str "Herbert")) None None)
                     (db_one_book BookStatus.repair)) eq_refl)
    as [book [_ [_ [H3 [_ [_ [_ [_ [_ [_ H10]]]]]]]]]].
  exists book. split; [exact H3 |]. rewrite <- H3 at 1. exact H10.
Defined.

(** ** POST /readers *)

(** X3. POST /readers either answers 400 and leaves the database as it
    was, or answers 201 and inserts one reader, with the name, address and
    phone of the body, under the key the body names or, when it names
    none, under a key larger than every key of the table; no reader had
    that key or that address. *)
Theorem post_readers_inserts_or_refuses isEmail body db :
  (statusCode (snd (post_readers isEmail body db)) = 400
   /\ fst (post_readers isEmail body db) = db)
  \/ exists reader,
       snd (post_readers isEmail body db)
       = mkResponse 201 (ReaderJson reader)
       /\ fst (post_readers isEmail body db)
          = mkDb (books db) (insert_by Reader_id reader (readers db))
                 (issues db)
       /\ Reader_id reader
          = key_or_next (body_reader_id body) (map Reader_id (readers db))
       /\ body_name body = Some (name reader)
       /\ body_email body = Some (email reader)
       /\ phone reader = body_phone body
       /\ (forall r, In r (readers db) ->
                     Reader_id r <> Reader_id reader
                     /\ email r <> email reader)
       /\ (body_reader_id body = None ->
           forall r, In r (readers db) -> Reader_id r < Reader_id reader)
       /\ reader_with_id (Reader_id reader)
            (fst (post_readers isEmail body db)) = Some reader.
Proof.
  destruct (post_readers_cases isEmail body db)
    as [H | [reader [H1 [H2 [H3 [H4 [H5 [H6 H7]]]]]]]]; [now left |].
  right. exists reader. rewrite H2.
  split; [exact H1 |]. split; [reflexivity |]. split; [exact H3 |].
  split; [exact H4 |]. split; [exact H5 |]. split; [exact H6 |].
  split; [exact H7 |]. split.
  - intros Hn r Hr. rewrite H3, Hn. cbn [key_or_next].
    apply nextId_above. now apply in_map.
  - unfold reader_with_id. cbn [readers]. apply find_insert_by.
    intros r Hr. now apply H7.
Qed.

(** X4. An address that a reader of the database already has is refused:
    POST /readers answers 400 and stores nothing, whatever the rest of the
    body. *)
Theorem post_readers_duplicate_email_refused isEmail body db r :
  In r (readers db) -> body_email body = Some (email r) ->
  statusCode (snd (post_readers isEmail body db)) = 400
  /\ fst (post_readers isEmail body db) = db.
Proof.
  intros Hr He.
  destruct (post_readers_cases isEmail body db)
    as [H | [reader [_ [_ [_ [_ [H5 [_ H7]]]]]]]]; [exact H |].
  elim (proj2 (H7 r Hr)). congruence.
Qed.

Lemma post_readers_duplicate_email_refused_witness :
  statusCode
    (snd (post_readers any_email
            (mkReaderBody (Some (str "Pyotr Petrov"))
               (Some (str "ivanov@example.com")) None)
            db_one_reader)) = 400
  /\ fst (post_readers any_email
            (mkReaderBody (Some (str "Pyotr Petrov"))
               (Some (str "ivanov@example.com")) None)
            db_one_reader) = db_one_reader.
Proof.
  apply (post_readers_duplicate_email_refused any_email _ db_one_reader
           reader_1).
  - now left.
  - reflexivity.
Defined.

(** ** Which tables a request writes *)

Lemma post_issue_readers now k r db :
  readers (fst (post_issue now k r db)) = readers db.
Proof.
  destruct (not_available (book_with_id k db)) eqn:E.
  - now rewrite (post_issue_refused now k r db E).
  - apply not_available_false in E. destruct E as [b [Hb Hs]].
    now rewrite (post_issue_done now k r db b Hb Hs).
Qed.

(** X5. Each request writes its own tables only: the GET requests write
    nothing, POST /books leaves readers and issues alone, POST /readers
    leaves books and issues alone, and POST /issue and POST /return leave
    the readers alone. *)
Theorem handle_frame isEmail loadTime now rq db :
  match rq with
  | GET_books | GET_readers =>
      fst (handle isEmail loadTime now rq db) = db
  | POST_books _ =>
      readers (fst (handle isEmail loadTime now rq db)) = readers db
      /\ issues (fst (handle isEmail loadTime now rq db)) = issues db
  | POST_readers _ =>
      books (fst (handle isEmail loadTime now rq db)) = books db
      /\ issues (fst (handle isEmail loadTime now rq db)) = issues db
  | POST_issue _ _ | POST_return _ =>
      readers (fst (handle isEmail loadTime now rq db)) = readers db
  end.
Proof.
  destruct rq as [| body | | body | k r | k]; cbn [handle].
  - reflexivity.
  - destruct (post_books_cases loadTime body db)
      as [[_ E] | [nb [_ [E _]]]]; rewrite E; now split.
  - reflexivity.
  - destruct (post_readers_cases isEmail body db)
      as [[_ E] | [nr [_ [E _]]]]; rewrite E; now split.
  - apply post_issue_readers.
  - reflexivity.
Qed.

(** ** Keys *)

Lemma effect_issue_keys rq db db' :
  effect rq db db' ->
  keys_from_one (map Issue_id (issues db)) ->
  keys_from_one (map Issue_id (issues db')).
Proof.
  intros [-> | body nb _ Hfree _ -> | nr _ -> | now k b _ _ ->] H;
    cbn [issues]; try exact H.
  rewrite map_app. cbn [map issued_row Issue_id].
  now apply keys_from_one_snoc.
Qed.

(** X6. In every database the server reaches from the empty one, the tables
    of books and of readers list their rows by strictly increasing key, so
    no two books and no two readers share a key, whatever keys the bodies
    named; the keys of the issues are 1, 2, ..., n. *)
Theorem reachable_keys_sorted isEmail loadTime db :
  reachable isEmail loadTime db ->
  StronglySorted Z.lt (map Book_id (books db))
  /\ StronglySorted Z.lt (map Reader_id (readers db))
  /\ NoDup (map Book_id (books db))
  /\ NoDup (map Reader_id (readers db))
  /\ keys_from_one (map Issue_id (issues db)).
Proof.
  intros R.
  assert (P : StronglySorted Z.lt (map Book_id (books db))
              /\ StronglySorted Z.lt (map Reader_id (readers db))
              /\ keys_from_one (map Issue_id (issues db))).
  { induction R as [| db now rq _ [IB [IR II]] _].
    - repeat split; constructor.
    - pose proof (handle_effect isEmail loadTime now rq db) as E.
      split; [exact (effect_book_keys_sorted rq _ _ E IB) |].
      split; [exact (effect_reader_keys_sorted rq _ _ E IR) |].
      exact (effect_issue_keys rq _ _ E II). }
  destruct P as [PB [PR PI]].
  split; [exact PB |]. split; [exact PR |].
  split; [now apply sorted_NoDup |]. split; [now apply sorted_NoDup |].
  exact PI.
Qed.

Lemma db_after_issue_reachable : reachable any_email day_2025 db_after_issue.
Proof.
  apply (reach_step _ any_email day_2025 (db_after_create None));
    [| exact I].
  apply (reach_step _ any_email day_2025 empty_db); [apply reach_empty |].
  exact I.
Qed.

Lemma reachable_keys_sorted_witness :
  reachable any_email day_2025 db_after_issue
  /\ NoDup (map Book_id (books db_after_issue))
  /\ keys_from_one (map Issue_id (issues db_after_issue)).
Proof.
  destruct (reachable_keys_sorted any_email day_2025 db_after_issue
              db_after_issue_reachable) as [_ [_ [H3 [_ H5]]]].
  split; [exact db_after_issue_reachable |]. now split.
Defined.

Lemma insert_by_NoDup {A B} (key : A -> Z) (f : A -> B) (a : A) rows :
  NoDup (map f rows) -> (forall x, In x rows -> f x <> f a) ->
  NoDup (map f (insert_by key a rows)).
Proof.
  induction rows as [| x r IH]; cbn [insert_by]; intros Hn Hf.
  - constructor; [intros [] | constructor].
  - destruct (key a <? key x).
    + change (NoDup (f a :: map f (x :: r))). constructor; [| exact Hn].
      intros Hin. apply in_map_iff in Hin. destruct Hin as [y [E Hy]].
      now elim (Hf y Hy).
    + change (NoDup (f x :: map f (insert_by key a r))).
      change (NoDup (f x :: map f r)) in Hn.
      inversion Hn as [| ? ? Hx Hr]; subst. constructor.
      * intros Hin. apply in_map_iff in Hin. destruct Hin as [y [E Hy]].
        apply insert_by_in in Hy. destruct Hy as [-> | Hy].
        -- elim (Hf x (or_introl eq_refl)). congruence.
        -- apply Hx. rewrite <- E. now apply in_map.
      * apply IH; [exact Hr |]. intros y Hy. apply Hf. now right.
Qed.

(** X7. In every database the server reaches from the empty one, no two
    readers have the same e-mail address. *)
Theorem reachable_emails_unique isEmail loadTime db :
  reachable isEmail loadTime db -> NoDup (map email (readers db)).
Proof.
  induction 1 as [| db now rq _ IH _].
  - constructor.
  - destruct (handle_effect isEmail loadTime now rq db)
      as [-> | body nb _ _ _ -> | nr Hfree -> | t k b _ _ ->];
      cbn [readers]; try exact IH.
    apply insert_by_NoDup; [exact IH |].
    intros r Hr. now apply Hfree.
Qed.

Lemma reachable_emails_unique_witness :
  reachable any_email day_2025
    (fst (handle any_email day_2025 march_1
            (POST_readers
               (mkReaderBody (Some (str "Ivan Ivanov"))
                  (Some (str "ivanov@example.com")) None))
            empty_db))
  /\ NoDup
       (map email
          (readers
             (fst (handle any_email day_2025 march_1
                     (POST_readers
                        (mkReaderBody (Some (str "Ivan Ivanov"))
                           (Some (str "ivanov@example.com")) None))
                     empty_db)))).
Proof.
  assert (R : reachable any_email day_2025
                (fst (handle any_email day_2025 march_1
                        (POST_readers
                           (mkReaderBody (Some (str "Ivan Ivanov"))
                              (Some (str "ivanov@example.com")) None))
                        empty_db))).
  { apply (reach_step _ any_email day_2025 empty_db); [apply reach_empty |].
    exact I. }
  split; [exact R | exact (reachable_emails_unique _ _ _ R)].
Defined.

(** ** Histories *)

(** X8. No request removes a row or rewrites its history, on any database:
    afterwards the books are the former books in the former order, with
    their key, title, author and year as they were, with at most one new
    book placed among them; the readers are the former readers with at
    most one new reader placed among them; and the issues are the former
    issues, unchanged, followed by at most one new issue. *)
Theorem handle_keeps_history isEmail loadTime now rq db :
  (exists before after more,
     map book_identity (books db) = before ++ after
     /\ map book_identity (books (fst (handle isEmail loadTime now rq db)))
        = before ++ more ++ after
     /\ (List.length more <= 1)%nat)
  /\ (exists before after more,
        readers db = before ++ after
        /\ readers (fst (handle isEmail loadTime now rq db))
           = before ++ more ++ after
        /\ (List.length more <= 1)%nat)
  /\ (exists more,
        issues (fst (handle isEmail loadTime now rq db))
        = issues db ++ more
        /\ (List.length more <= 1)%nat).
Proof.
  destruct (handle_effect isEmail loadTime now rq db)
    as [-> | body nb _ _ _ -> | nr _ -> | t k b _ _ ->];
    cbn [books readers issues].
  - split; [| split].
    + exists (map book_identity (books db)), [], []. rewrite !app_nil_r.
      repeat split. cbn. lia.
    + exists (readers db), [], []. rewrite !app_nil_r. repeat split.
      cbn. lia.
    + exists []. rewrite app_nil_r. split; [reflexivity | cbn; lia].
  - split; [| split].
    + destruct (insert_by_split Book_id nb (books db))
        as [l1 [l2 [E1 E2]]].
      exists (map book_identity l1), (map book_identity l2),
        [book_identity nb].
      rewrite E2. rewrite E1 at 1. rewrite !map_app. cbn [map app].
      repeat split. cbn. lia.
    + exists (readers db), [], []. rewrite !app_nil_r. repeat split.
      cbn. lia.
    + exists []. rewrite app_nil_r. split; [reflexivity | cbn; lia].
  - split; [| split].
    + exists (map book_identity (books db)), [], []. rewrite !app_nil_r.
      repeat split. cbn. lia.
    + destruct (insert_by_split Reader_id nr (readers db))
        as [l1 [l2 [E1 E2]]].
      exists l1, l2, [nr]. rewrite E2. cbn [app]. repeat split;
        [exact E1 | cbn; lia].
    + exists []. rewrite app_nil_r. split; [reflexivity | cbn; lia].
  - split; [| split].
    + exists (map book_identity (books db)), [], []. rewrite !app_nil_r.
      rewrite update_books_identity. repeat split. cbn. lia.
    + exists (readers db), [], []. rewrite !app_nil_r. repeat split.
      cbn. lia.
    + exists [issued_row t db]. split; [reflexivity | cbn; lia].
Qed.

(** ** Dates of return *)

(** X9. In every database the server reaches from the empty one, an issue
    has status 'issued' and no return date, or status 'returned' and a
    return date; the status 'overdue' never occurs. *)
Theorem reachable_issues_dated isEmail loadTime db i :
  reachable isEmail loadTime db -> In i (issues db) ->
  (Issue_status i = IssueStatus.issued /\ returnDate i = None)
  \/ (Issue_status i = IssueStatus.returned
      /\ exists d, returnDate i = Some d).
Proof.
  intros R Hi. left.
  assert (D : forall x, In x (issues db) ->
                Issue_status x = IssueStatus.issued /\ returnDate x = None).
  { clear i Hi. induction R as [| db now rq _ IH _].
    - intros x [].
    - destruct (handle_effect isEmail loadTime now rq db)
        as [-> | body nb _ _ _ -> | nr _ -> | t k b _ _ ->];
        cbn [issues]; try exact IH.
      intros x Hx. apply in_app_iff in Hx.
      destruct Hx as [Hx | [<- | []]]; [now apply IH | now split]. }
  exact (D i Hi).
Qed.

Lemma reachable_issues_dated_witness :
  reachable any_email day_2025 db_after_issue
  /\ In issue_1 (issues db_after_issue)
  /\ ((Issue_status issue_1 = IssueStatus.issued
       /\ returnDate issue_1 = None)
      \/ (Issue_status issue_1 = IssueStatus.returned
          /\ exists d, returnDate issue_1 = Some d)).
Proof.
  split; [exact db_after_issue_reachable |].
  split; [now left |].
  apply (reachable_issues_dated any_email day_2025 db_after_issue).
  - exact db_after_issue_reachable.
  - now left.
Defined.

(** ** Answers of POST /issue and POST /return *)

(** X11. POST /issue answers 201 exactly when a book has the given key and
    is in status 'available', whatever the reader id; otherwise it answers
    400 with the text of the refusal and leaves the database as it was: no
    other answer occurs. *)
Theorem post_issue_answers now k r db :
  (statusCode (snd (post_issue now k r db)) = 201
   <-> exists b, book_with_id k db = Some b
                 /\ status b = BookStatus.available)
  /\ (statusCode (snd (post_issue now k r db)) <> 201 ->
      post_issue now k r db = (db, error_response 400 book_unavailable)).
Proof.
  destruct (not_available (book_with_id k db)) eqn:E.
  - rewrite (post_issue_refused now k r db E). cbn. split.
    + split; [discriminate |]. intros [b [Hb Hs]].
      rewrite Hb in E. cbn in E. rewrite Hs in E. discriminate.
    + reflexivity.
  - apply not_available_false in E. destruct E as [b [Hb Hs]].
    rewrite (post_issue_done now k r db b Hb Hs). cbn. split.
    + split; [intros _; now exists b | reflexivity].
    + congruence.
Qed.

Lemma book_with_id_update_any k k' s db rs iss :
  book_with_id k (mkDb (update_books k' s (books db)) rs iss)
  = option_map (fun b => if Book_id b =? k' then set_status s b else b)
      (book_with_id k db).
Proof.
  unfold book_with_id. cbn [books].
  induction (books db) as [| b l IH]; cbn.
  - reflexivity.
  - assert (E : Book_id (if Book_id b =? k' then set_status s b else b)
                = Book_id b) by now destruct (Book_id b =? k').
    rewrite E. destruct (Book_id b =? k); [reflexivity | exact IH].
Qed.

(** X12. POST /return never succeeds: on every database, for every book
    id, it answers 400 and writes nothing.  Hence a book that is in status
    'issued' stays in it under every request, with its key, title, author
    and year as they were. *)
Theorem post_return_never_succeeds :
  (forall now k db,
     post_return now k db = (db, return_rejected)
     /\ statusCode (snd (post_return now k db)) = 400)
  /\ (forall isEmail loadTime now rq db k b,
        book_with_id k db = Some b -> status b = BookStatus.issued ->
        exists b',
          book_with_id k (fst (handle isEmail loadTime now rq db)) = Some b'
          /\ status b' = BookStatus.issued
          /\ book_identity b' = book_identity b).
Proof.
  split; [intros now k db; now split |].
  intros isEmail loadTime now rq db k b Hb Hs.
  destruct (book_with_id_some k db b Hb) as [Hin Hk].
  destruct (handle_effect isEmail loadTime now rq db)
    as [-> | body nb _ Hfree _ -> | nr _ -> | t k' b0 _ _ ->].
  - now exists b.
  - exists b. split; [| now split].
    unfold book_with_id. cbn [books].
    rewrite find_insert_by_other; [exact Hb |].
    intros E. elim (Hfree b Hin). congruence.
  - now exists b.
  - rewrite book_with_id_update_any, Hb. cbn [option_map].
    destruct (Book_id b =? k').
    + exists (set_status BookStatus.issued b). now repeat split.
    + now exists b.
Qed.

Lemma post_return_never_succeeds_witness :
  book_with_id 1 db_after_issue = Some (book_1 BookStatus.issued)
  /\ exists b',
       book_with_id 1
         (fst (handle any_email day_2025 march_9 (POST_return 1)
                 db_after_issue)) = Some b'
       /\ status b' = BookStatus.issued
       /\ book_identity b' = book_identity (book_1 BookStatus.issued).
Proof.
  split; [reflexivity |].
  apply (proj2 post_return_never_succeeds any_email day_2025 march_9
           (POST_return 1) db_after_issue 1 (book_1 BookStatus.issued));
    reflexivity.
Defined.

(** X13. A book cannot be issued twice in a row: after a POST /issue that
    succeeded, a second POST /issue of the same book, to any reader at any
    time, is refused with 400 and writes nothing. *)
Theorem second_issue_refused t1 t2 k r1 r2 db b :
  book_with_id k db = Some b -> status b = BookStatus.available ->
  statusCode (snd (post_issue t1 k r1 db)) = 201
  /\ post_issue t2 k r2 (fst (post_issue t1 k r1 db))
     = (fst (post_issue t1 k r1 db), error_response 400 book_unavailable).
Proof.
  intros Hb Hs. rewrite (post_issue_done t1 k r1 db b Hb Hs). cbn [fst snd].
  split; [reflexivity |]. apply post_issue_refused.
  now rewrite book_with_id_update, Hb.
Qed.

Lemma second_issue_refused_witness :
  statusCode
    (snd (post_issue march_1 1 7 (db_one_book BookStatus.available))) = 201
  /\ post_issue march_9 1 8
       (fst (post_issue march_1 1 7 (db_one_book BookStatus.available)))
     = (fst (post_issue march_1 1 7 (db_one_book BookStatus.available)),
        error_response 400 book_unavailable).
Proof.
  apply (second_issue_refused march_1 march_9 1 7 8
           (db_one_book BookStatus.available)
           (book_1 BookStatus.available)); reflexivity.
Defined.

(** ** The phone pattern *)

Lemma isSpace_phoneChar (c : N) : isSpace c = true -> Validator.phoneChar c = true.
Proof.
  unfold Validator.phoneChar. intros ->.
  now rewrite orb_true_r.
Qed.

(** X17. The phone pattern asks for no digit: a text of seven or more
    white-space characters passes it. *)
Theorem phone_needs_no_digit (s : jsstring) :
  forallb isSpace s = true -> (7 <= List.length s)%nat ->
  Validator.phonePattern s = true.
Proof.
  intros Hs Hl. unfold Validator.phonePattern.
  assert (Hrest : match s with
                  | c :: r => if (c =? 43)%N then r else s
                  | [] => s
                  end = s).
  { destruct s as [| c r]; [reflexivity |].
    destruct (c =? 43)%N eqn:E; [| reflexivity].
    apply N.eqb_eq in E. subst c. cbn in Hs. discriminate. }
  rewrite Hrest. apply andb_true_iff. split.
  - now apply Nat.leb_le.
  - apply forallb_forall. intros c Hc. apply isSpace_phoneChar.
    now apply (proj1 (forallb_forall isSpace s) Hs).
Qed.

Lemma phone_needs_no_digit_witness :
  Validator.phonePattern seven_spaces = true.
Proof.
  apply (phone_needs_no_digit seven_spaces); [reflexivity | cbn; lia].
Defined.

(** X18. A text that passes the phone pattern has at least seven
    characters, and each character after the first is a digit, white
    space, a hyphen or a parenthesis: a plus sign is admitted in the first
    position only, and with it the text has at least eight characters. *)
Theorem phone_pattern_shape (s : jsstring) :
  Validator.phonePattern s = true ->
  (7 <= List.length s)%nat
  /\ (forall c, In c (tl s) -> Validator.phoneChar c = true /\ c <> 43%N)
  /\ (forall r, s = 43%N :: r -> (7 <= List.length r)%nat).
Proof.
  assert (P : forall c, Validator.phoneChar c = true -> c <> 43%N).
  { intros c H ->. cbn in H. discriminate. }
  unfold Validator.phonePattern. destruct s as [| c r].
  - cbn. discriminate.
  - destruct (c =? 43)%N eqn:E; intros H; apply andb_true_iff in H;
      destruct H as [Hl Hf]; apply Nat.leb_le in Hl;
      rewrite forallb_forall in Hf.
    + apply N.eqb_eq in E. subst c. cbn [List.length tl]. split; [lia |].
      split; [intros x Hx; split; [now apply Hf | apply P; now apply Hf] |].
      intros r' Er. injection Er as <-. exact Hl.
    + cbn [List.length tl] in *. split; [lia |].
      split.
      * intros x Hx. assert (Hx' : In x (c :: r)) by now right.
        split; [now apply Hf | apply P; now apply Hf].
      * intros r' Er. injection Er as -> _. now rewrite N.eqb_refl in E.
Qed.

Lemma phone_pattern_shape_witness :
  Validator.phonePattern (str "+7 (123) 456-78-90") = true
  /\ (7 <= List.length (str "+7 (123) 456-78-90"))%nat.
Proof.
  split; [reflexivity |].
  exact (proj1 (phone_pattern_shape (str "+7 (123) 456-78-90") eq_refl)).
Defined.

(** ** GET /books after a write *)

(** X20. GET /books shows the writes of the other handlers: after a
    POST /issue that succeeded it answers 200 with the former books in the
    former order, those of the issued key now in status 'issued' and the
    others as they were, and it writes nothing itself. *)
Theorem get_books_after_issue now k r db b :
  book_with_id k db = Some b -> status b = BookStatus.available ->
  exists listed,
    get_books (fst (post_issue now k r db))
    = (fst (post_issue now k r db), mkResponse 200 (BooksJson listed))
    /\ map book_identity listed = map book_identity (books db)
    /\ (forall x, In x listed -> Book_id x = k ->
                  status x = BookStatus.issued)
    /\ (forall x, In x listed -> Book_id x <> k -> In x (books db)).
Proof.
  intros Hb Hs. rewrite (post_issue_done now k r db b Hb Hs). cbn [fst].
  exists (update_books k BookStatus.issued (books db)).
  split; [reflexivity |]. split; [apply update_books_identity |].
  split; intros x Hx Hk;
    destruct (update_books_in _ _ _ _ Hx)
      as [b0 [Hb0 [Hk0 [[He Hst] | [Hne ->]]]]];
    try assumption; congruence.
Qed.

Lemma get_books_after_issue_witness :
  exists listed,
    get_books
      (fst (post_issue march_1 1 7 (db_one_book BookStatus.available)))
    = (fst (post_issue march_1 1 7 (db_one_book BookStatus.available)),
       mkResponse 200 (BooksJson listed))
    /\ map book_identity listed
       = map book_identity (books (db_one_book BookStatus.available))
    /\ (forall x, In x listed -> Book_id x = 1 ->
                  status x = BookStatus.issued)
    /\ (forall x, In x listed -> Book_id x <> 1 ->
                  In x (books (db_one_book BookStatus.available))).
Proof.
  apply (get_books_after_issue march_1 1 7
           (db_one_book BookStatus.available)
           (book_1 BookStatus.available)); reflexivity.
Defined.
